(** * The drag guard of [web_static/index.js]

    The script registers, through [htmx.onLoad], a callback that attaches a
    listener for [htmx:sseBeforeMessage] to [document.body]; the listener
    cancels the event when the event's target has a descendant matching
    [input[type=range][data-dragging=true]].

    The development embeds the two function bodies of the script in a small
    state-and-exception monad over the part of the browser they can reach:
    the event object, the DOM around its target, the listener list of
    [document.body] and htmx's list of load callbacks. *)

From Stdlib Require Import String Ascii List Bool Arith Lia.
Import ListNotations.
Local Open Scope string_scope.
Local Open Scope list_scope.
Local Open Scope nat_scope.

Set Implicit Arguments.

(** ** The DOM *)

Module Dom.

(** An attribute is a name and a value; an element holds them in order and
    [getAttribute] returns the first one of a name. *)
Definition Attr : Type := (string * string)%type.

(** Elements and the other nodes (text) that may sit among their children. *)
Inductive Element : Type :=
| mkElement (localName : string) (attributes : list Attr) (childNodes : list Node)
with Node : Type :=
| TextNode (data : string)
| ElementNode (e : Element).

Definition localName (e : Element) : string :=
  match e with mkElement n _ _ => n end.

Definition attributes (e : Element) : list Attr :=
  match e with mkElement _ a _ => a end.

Definition childNodes (e : Element) : list Node :=
  match e with mkElement _ _ c => c end.

Fixpoint lookupAttr (name : string) (l : list Attr) : option string :=
  match l with
  | [] => None
  | (n, v) :: r => if String.eqb n name then Some v else lookupAttr name r
  end.

Definition getAttribute (name : string) (e : Element) : option string :=
  lookupAttr name (attributes e).

(** The descendant elements of [e] in tree order (preorder); [e] itself is
    not among them. *)
Fixpoint descendants (e : Element) : list Element :=
  match e with
  | mkElement _ _ kids =>
      (fix walk (ns : list Node) : list Element :=
         match ns with
         | [] => []
         | TextNode _ :: r => walk r
         | ElementNode c :: r => c :: descendants c ++ walk r
         end) kids
  end.

(** The same walk over a list of children, as a function of its own. *)
Fixpoint descendantsOfNodes (ns : list Node) : list Element :=
  match ns with
  | [] => []
  | TextNode _ :: r => descendantsOfNodes r
  | ElementNode c :: r => c :: descendants c ++ descendantsOfNodes r
  end.

(** One level of the path from an element up to the root: the parent's name
    and attributes and the siblings to the left and to the right. *)
Record Frame : Type := mkFrame {
  parentName : string;
  parentAttributes : list Attr;
  before : list Node;
  after : list Node
}.

(** A reference to an element of a document: the element (with its subtree)
    and the frames above it, innermost first. *)
Record Target : Type := mkTarget {
  ancestors : list Frame;
  element : Element
}.

Definition fill (f : Frame) (e : Element) : Element :=
  mkElement (parentName f) (parentAttributes f)
            (before f ++ ElementNode e :: after f).

(** The root element of the document a target lives in. *)
Fixpoint plug (fs : list Frame) (e : Element) : Element :=
  match fs with
  | [] => e
  | f :: up => plug up (fill f e)
  end.

Definition documentElement (t : Target) : Element :=
  plug (ancestors t) (element t).

End Dom.

Import Dom.

(** ** Selectors *)

Module Selector.

(** The selectors of the fragment the script uses: a type selector followed
    by attribute tests [[name=value]]. *)
Record Compound : Type := mkCompound {
  typeName : string;
  attrTests : list (string * string)
}.

Definition isLetter (c : ascii) : bool :=
  let n := nat_of_ascii c in
  ((65 <=? n) && (n <=? 90)) || ((97 <=? n) && (n <=? 122)).

Definition isDigit (c : ascii) : bool :=
  let n := nat_of_ascii c in (48 <=? n) && (n <=? 57).

Definition identStart (c : ascii) : bool :=
  isLetter c || Ascii.eqb c "_"%char.

Definition identChar (c : ascii) : bool :=
  identStart c || isDigit c || Ascii.eqb c "-"%char.

Definition snoc (s : string) (c : ascii) : string :=
  String.append s (String c "").

(** Where the scanner is: in the type name, in an attribute name, in an
    attribute value, or just behind a closing bracket. *)
Inductive Scan : Type :=
| InType (name : string)
| InAttrName (name : string)
| InAttrValue (name value : string)
| Closed.

Definition nonEmpty (s : string) : bool :=
  match s with EmptyString => false | _ => true end.

Definition extend (s : string) (c : ascii) : option string :=
  if (if nonEmpty s then identChar c else identStart c)
  then Some (snoc s c) else None.

(** One pass over the characters; [None] is a selector the fragment does not
    accept, which [querySelector] reports as a [SyntaxError]. *)
Fixpoint scan (st : Scan) (ty : string) (tests : list (string * string))
         (s : string) : option Compound :=
  match s with
  | EmptyString =>
      match st with
      | InType name =>
          if nonEmpty name then Some (mkCompound name (rev tests)) else None
      | Closed => Some (mkCompound ty (rev tests))
      | _ => None
      end
  | String c r =>
      match st with
      | InType name =>
          if Ascii.eqb c "["%char
          then if nonEmpty name then scan (InAttrName "") name tests r else None
          else match extend name c with
               | Some name' => scan (InType name') ty tests r
               | None => None
               end
      | InAttrName name =>
          if Ascii.eqb c "="%char
          then if nonEmpty name then scan (InAttrValue name "") ty tests r else None
          else match extend name c with
               | Some name' => scan (InAttrName name') ty tests r
               | None => None
               end
      | InAttrValue name value =>
          if Ascii.eqb c "]"%char
          then if nonEmpty value then scan Closed ty ((name, value) :: tests) r else None
          else match extend value c with
               | Some value' => scan (InAttrValue name value') ty tests r
               | None => None
               end
      | Closed =>
          if Ascii.eqb c "["%char then scan (InAttrName "") ty tests r else None
      end
  end.

Definition parse (s : string) : option Compound := scan (InType "") "" [] s.

Definition lowerChar (c : ascii) : ascii :=
  let n := nat_of_ascii c in
  if (65 <=? n) && (n <=? 90) then ascii_of_nat (n + 32) else c.

Fixpoint lower (s : string) : string :=
  match s with
  | EmptyString => EmptyString
  | String c r => String (lowerChar c) (lower r)
  end.

(** The attributes whose values HTML compares without regard to ASCII case
    when a selector tests them. *)
Definition caseInsensitiveAttributes : list string :=
  [ "accept"; "accept-charset"; "align"; "alink"; "axis"; "bgcolor";
    "charset"; "checked"; "clear"; "codetype"; "color"; "compact";
    "declare"; "defer"; "dir"; "direction"; "disabled"; "enctype"; "face";
    "frame"; "hreflang"; "http-equiv"; "lang"; "language"; "link"; "media";
    "method"; "multiple"; "nohref"; "noresize"; "noshade"; "nowrap";
    "readonly"; "rel"; "rev"; "rules"; "scope"; "scrolling"; "selected";
    "shape"; "target"; "text"; "type"; "valign"; "valuetype"; "vlink" ].

Definition caseInsensitive (name : string) : bool :=
  existsb (String.eqb name) caseInsensitiveAttributes.

Definition valueEqb (name have want : string) : bool :=
  if caseInsensitive name
  then String.eqb (lower have) (lower want)
  else String.eqb have want.

(** [[name=value]] on an element of an HTML document: the attribute is there
    and its value is the given one. *)
Definition attrTest (e : Element) (t : string * string) : bool :=
  let name := lower (fst t) in
  match getAttribute name e with
  | Some v => valueEqb name v (snd t)
  | None => false
  end.

Definition matches (sel : Compound) (e : Element) : bool :=
  String.eqb (localName e) (lower (typeName sel))
  && forallb (attrTest e) (attrTests sel).

End Selector.


(** ** The browser state the script can reach *)

Module Browser.

(** The two function expressions of [index.js]: the callback given to
    [htmx.onLoad] and the listener it attaches. *)
Inductive Code : Type :=
| OnLoadCallback
| DragGuard.

(** A function object: evaluating a function expression creates a new one
    each time, told apart from the others by its identity. *)
Record Function : Type := mkFunction {
  identity : nat;
  code : Code
}.

Record Listener : Type := mkListener {
  listenerType : string;
  callback : Function;
  capture : bool
}.

(** An event object as the listeners see it. The target is the element the
    event was dispatched on: htmx raises its events on elements (for a live
    update, the element that receives the server's message). *)
Record Event : Type := mkEvent {
  eventType : string;
  target : Target;
  cancelable : bool;
  canceled : bool
}.

Inductive Exn : Type :=
| SyntaxError.

(** The calls that change something outside the function that makes them. *)
Inductive Call : Type :=
| PreventDefault
| AddEventListener (ty : string) (f : Function)
| OnLoad (f : Function)
| ReportError (e : Exn).

Record Page : Type := mkPage {
  allocated : nat;
  loadCallbacks : list Function;
  bodyListeners : list Listener;
  calls : list Call
}.

(** What a running listener reaches: its event argument and the page. *)
Record Heap : Type := mkHeap {
  event : Event;
  page : Page
}.

Inductive Completion (A : Type) : Type :=
| Normal (a : A)
| Throw (e : Exn).

Arguments Normal {A} a.
Arguments Throw {A} e.

Definition JS (S A : Type) : Type := S -> Completion A * S.

Definition ret {S A : Type} (a : A) : JS S A := fun s => (Normal a, s).

Definition bind {S A B : Type} (m : JS S A) (k : A -> JS S B) : JS S B :=
  fun s =>
    match m s with
    | (Normal a, s') => k a s'
    | (Throw e, s') => (Throw e, s')
    end.

Definition throw {S A : Type} (e : Exn) : JS S A := fun s => (Throw e, s).

Declare Scope js_scope.
Delimit Scope js_scope with js.
Notation "x <- m ;; k" := (bind m (fun x => k))
  (at level 61, m at next level, right associativity) : js_scope.
Local Open Scope js_scope.

(** A function that only touches the page, run by a listener. *)
Definition liftPage {A : Type} (m : JS Page A) : JS Heap A :=
  fun h =>
    match m (page h) with
    | (r, p') => (r, mkHeap (event h) p')
    end.

Definition logCall (c : Call) (p : Page) : Page :=
  mkPage (allocated p) (loadCallbacks p) (bodyListeners p) (calls p ++ [c]).

(** [event.target] *)
Definition eventTarget : JS Heap Target :=
  fun h => (Normal (target (event h)), h).

(** [element.querySelector(selectors)]: the first descendant in tree order
    that matches, [None] for JavaScript's [null]. *)
Definition querySelector {S : Type} (t : Target) (selectors : string)
  : JS S (option Element) :=
  match Selector.parse selectors with
  | Some sel => ret (find (Selector.matches sel) (descendants (element t)))
  | None => throw SyntaxError
  end.

Definition setCanceled (e : Event) : Event :=
  mkEvent (eventType e) (target e) (cancelable e) (canceled e || cancelable e).

(** [event.preventDefault()]: sets the canceled flag of a cancelable event. *)
Definition preventDefault : JS Heap unit :=
  fun h => (Normal tt, mkHeap (setCanceled (event h)) (logCall PreventDefault (page h))).

(** Evaluating a function expression. *)
Definition newFunction (c : Code) : JS Page Function :=
  fun p =>
    (Normal (mkFunction (allocated p) c),
     mkPage (S (allocated p)) (loadCallbacks p) (bodyListeners p) (calls p)).

Definition sameListener (a b : Listener) : bool :=
  String.eqb (listenerType a) (listenerType b)
  && Nat.eqb (identity (callback a)) (identity (callback b))
  && Bool.eqb (capture a) (capture b).

(** [document.body.addEventListener(type, callback)]: appended unless the
    list holds a listener of the same type, callback and capture already. *)
Definition addEventListener (ty : string) (f : Function) : JS Page unit :=
  fun p =>
    let l := mkListener ty f false in
    let ls := if existsb (sameListener l) (bodyListeners p)
              then bodyListeners p
              else bodyListeners p ++ [l] in
    (Normal tt,
     mkPage (allocated p) (loadCallbacks p) ls (calls p ++ [AddEventListener ty f])).

(** [htmx.onLoad(callback)]: htmx keeps the callback and calls it at every
    [htmx:load] event, that is, once for the document when htmx first
    processes it and once more for each element htmx later loads into the
    DOM. htmx itself is not part of the repository; how often it fires the
    event is left to the host steps below. *)
Definition htmxOnLoad (f : Function) : JS Page unit :=
  fun p =>
    (Normal tt,
     mkPage (allocated p) (loadCallbacks p ++ [f]) (bodyListeners p)
            (calls p ++ [OnLoad f])).

(** *** The script *)

Definition dragSelector : string := "input[type=range][data-dragging=true]".

Definition liveUpdate : string := "htmx:sseBeforeMessage".

(** [function (event) { if (event.target.querySelector(...) !== null)
    { event.preventDefault(); } }] *)
Definition dragGuard : JS Heap unit :=
  t <- eventTarget ;;
  found <- querySelector t dragSelector ;;
  match found with
  | Some _ => preventDefault
  | None => ret tt
  end.

(** [function () { document.body.addEventListener("htmx:sseBeforeMessage",
    function (event) {...}); }] *)
Definition onLoadCallback : JS Page unit :=
  f <- newFunction DragGuard ;;
  addEventListener liveUpdate f.

(** The top level: [htmx.onLoad(function () {...});] *)
Definition script : JS Page unit :=
  f <- newFunction OnLoadCallback ;;
  htmxOnLoad f.

(** *** The host: htmx and event dispatch *)

Definition call (f : Function) : JS Heap unit :=
  match code f with
  | OnLoadCallback => liftPage onLoadCallback
  | DragGuard => dragGuard
  end.

(** A listener that throws has its exception reported; dispatch goes on. *)
Definition invoke (f : Function) : JS Heap unit :=
  fun h =>
    match call f h with
    | (Normal _, h') => (Normal tt, h')
    | (Throw e, h') => (Normal tt, mkHeap (event h') (logCall (ReportError e) (page h')))
    end.

Fixpoint invokeAll (fs : list Function) : JS Heap unit :=
  match fs with
  | [] => ret tt
  | f :: r => _ <- invoke f ;; invokeAll r
  end.

Definition listensTo (e : Event) (l : Listener) : bool :=
  String.eqb (listenerType l) (eventType e).

(** An event that reaches [document.body] (htmx's events bubble up from
    their target): the listeners of its type run in order on the one event
    object; the result is [false] when it was
    canceled, which is when htmx skips the swap. *)
Definition dispatchEvent (e : Event) (p : Page) : bool * Heap :=
  let fs := map callback (filter (listensTo e) (bodyListeners p)) in
  let h := snd (invokeAll fs (mkHeap e p)) in
  (negb (canceled (event h)), h).

(** htmx fires [htmx:load]: every callback given to [htmx.onLoad] runs. *)
Definition htmxLoad (e : Event) (p : Page) : Page :=
  page (snd (invokeAll (loadCallbacks p) (mkHeap e p))).

Inductive HostStep : Type :=
| HtmxLoad (e : Event)
| SseMessage (e : Event).

Definition step (p : Page) (s : HostStep) : Page :=
  match s with
  | HtmxLoad e => htmxLoad e p
  | SseMessage e => page (snd (dispatchEvent e p))
  end.

Definition run (steps : list HostStep) (p : Page) : Page :=
  fold_left step steps p.

Definition emptyPage : Page := mkPage 0 [] [] [].

(** The page once the script has run. *)
Definition scripted : Page := snd (script emptyPage).

Definition liveListeners (p : Page) : list Listener :=
  filter (fun l => String.eqb (listenerType l) liveUpdate) (bodyListeners p).

End Browser.

Import Browser.
Local Open Scope js_scope.

(** ** The vocabulary of the specification *)

Module Marker.

(** A range input: an [input] element whose [type] attribute is [range]
    (HTML reads the keyword without regard to case). *)
Definition isRangeInput (e : Element) : bool :=
  String.eqb (localName e) "input"
  && match getAttribute "type" e with
     | Some v => String.eqb (Selector.lower v) "range"
     | None => false
     end.

(** The drag marker of an element, when it carries one. *)
Definition dragMarker (e : Element) : option string :=
  getAttribute "data-dragging" e.

Definition markerIsTrue (e : Element) : bool :=
  match dragMarker e with
  | Some v => String.eqb v "true"
  | None => false
  end.

(** A range input whose drag marker is set to true. *)
Definition beingDragged (e : Element) : bool :=
  isRangeInput e && markerIsTrue e.

(** The region an event is about: the strict descendants of its target. *)
Definition region (h : Heap) : list Element :=
  descendants (element (target (event h))).

End Marker.

Import Marker.

(** ** Concrete pages used below *)

Module Sample.

Definition slider (marker : list Attr) : Element :=
  mkElement "input" (("type", "range") :: marker) [].

Definition dragged : Element := slider [("data-dragging", "true")].

Definition released : Element := slider [("data-dragging", "false")].

Definition panel (kids : list Node) : Element :=
  mkElement "div" [("sse-swap", "volume")] kids.

Definition body : Frame := mkFrame "body" [] [] [].

Definition message (t : Target) : Event := mkEvent liveUpdate t true false.

Definition loadEvent : Event :=
  mkEvent "htmx:load" (mkTarget [] (mkElement "body" [] [])) false false.

Definition listening : Page :=
  mkPage 2 [mkFunction 0 OnLoadCallback]
         [mkListener liveUpdate (mkFunction 1 DragGuard) false] [].

Definition draggedHeap : Heap :=
  mkHeap (message (mkTarget [body] (panel [TextNode "Volume"; ElementNode dragged])))
         listening.

Definition releasedHeap : Heap :=
  mkHeap (message (mkTarget [body] (panel [ElementNode released])))
         listening.

(** The target is itself a marked slider and has marked siblings; below it
    there is a slider that is not marked. *)
Definition markedWithChildren : Element :=
  mkElement "input" [("type", "range"); ("data-dragging", "true")]
            [TextNode "50"; ElementNode released].

Definition besideMarked : Frame :=
  mkFrame "body" [] [ElementNode dragged] [ElementNode dragged].

Definition outsideHeap : Heap :=
  mkHeap (message (mkTarget [besideMarked] markedWithChildren)) listening.

(** The children of [draggedHeap]'s target under another element, in another
    document, on another page, in an event with other flags. *)
Definition elsewhereHeap : Heap :=
  mkHeap (mkEvent liveUpdate
            (mkTarget [mkFrame "main" [("id", "app")] [ElementNode released] [];
                       body]
                      (mkElement "section" [("data-dragging", "false")]
                                 [TextNode "Volume"; ElementNode dragged]))
            false true)
         (mkPage 5 [] [] [PreventDefault]).

End Sample.

(** ** Definitions used in the statements *)

(** The selector of the script, parsed. *)
Definition dragCompound : Selector.Compound :=
  Selector.mkCompound "input" [("type", "range"); ("data-dragging", "true")].

(** Two pages with the same function objects, load callbacks and body
    listeners: nothing was created or registered between them. *)
Definition sameRegistry (p q : Page) : Prop :=
  allocated q = allocated p
  /\ loadCallbacks q = loadCallbacks p
  /\ bodyListeners q = bodyListeners p.

(** The listener attached by the [i]-th run of the load callback. *)
Definition guardListener (i : nat) : Listener :=
  mkListener liveUpdate (mkFunction (S i) DragGuard) false.

(** The page after the script and [n] runs of its load callback. *)
Definition Registered (n : nat) (p : Page) : Prop :=
  allocated p = S n
  /\ loadCallbacks p = [mkFunction 0 OnLoadCallback]
  /\ bodyListeners p = map guardListener (seq 0 n).

Definition isLoad (s : HostStep) : bool :=
  match s with
  | HtmxLoad _ => true
  | SseMessage _ => false
  end.

Definition loads (steps : list HostStep) : nat :=
  length (filter isLoad steps).

(** Whether the region of the event holds a range input being dragged. *)
Definition marked (h : Heap) : bool :=
  existsb beingDragged (region h).

Definition isPreventDefault (c : Call) : bool :=
  match c with
  | PreventDefault => true
  | _ => false
  end.

Definition preventDefaultCalls (p : Page) : nat :=
  length (filter isPreventDefault (calls p)).

(** ** Host runs and documents used for the further properties *)

Module Scenario.

(** Two load events with a live update between them. *)
Definition twoLoads : list HostStep :=
  [HtmxLoad Sample.loadEvent;
   SseMessage (event Sample.releasedHeap);
   HtmxLoad Sample.loadEvent].

(** Live updates only: htmx has not fired [htmx:load] yet. *)
Definition noLoad : list HostStep :=
  [SseMessage (event Sample.draggedHeap)].


(** A live update that an earlier listener has canceled already. *)
Definition canceledBefore : Event :=
  mkEvent liveUpdate (target (event Sample.releasedHeap)) true true.

(** A dragged slider two levels down: in a [label] in a [form]. *)
Definition nesting : list Frame :=
  [mkFrame "label" [] [TextNode "Volume"] [];
   mkFrame "form" [("id", "controls")] [] [ElementNode Sample.released]].

Definition deepHeap : Heap :=
  mkHeap (Sample.message (mkTarget [Sample.body] (plug nesting Sample.dragged)))
         Sample.listening.

(** The region of [Sample.draggedHeap] inside a larger one. *)
Definition around : list Frame :=
  [mkFrame "main" [] [ElementNode Sample.released] [TextNode "footer"]].

Definition widerHeap : Heap :=
  mkHeap (Sample.message
            (mkTarget [Sample.body]
                      (plug around (element (target (event Sample.draggedHeap))))))
         Sample.listening.

(** A released slider beside a dragged one, and beside one that carries no
    marker at all. *)
Definition mixedHeap : Heap :=
  mkHeap (Sample.message
            (mkTarget [Sample.body]
                      (Sample.panel [ElementNode Sample.released;
                                     ElementNode Sample.dragged])))
         Sample.listening.

Definition restingHeap : Heap :=
  mkHeap (Sample.message
            (mkTarget [Sample.body]
                      (Sample.panel [ElementNode Sample.released;
                                     ElementNode (Sample.slider [])])))
         Sample.listening.

End Scenario.

(** ** The selector and the marker *)

Lemma parse_dragSelector : Selector.parse dragSelector = Some dragCompound.
Proof. reflexivity. Qed.

(** The selector of the script picks exactly the range inputs whose drag
    marker is the string [true]. *)
Lemma matches_beingDragged (e : Element) :
  Selector.matches dragCompound e = beingDragged e.
Proof.
  unfold Selector.matches, beingDragged, isRangeInput, markerIsTrue, dragMarker.
  change (Selector.lower (Selector.typeName dragCompound)) with "input".
  change (Selector.attrTests dragCompound)
    with [("type", "range"); ("data-dragging", "true")].
  unfold forallb, Selector.attrTest, fst, snd.
  change (Selector.lower "type") with "type".
  change (Selector.lower "data-dragging") with "data-dragging".
  unfold Selector.valueEqb.
  change (Selector.caseInsensitive "type") with true.
  change (Selector.caseInsensitive "data-dragging") with false.
  change (Selector.lower "range") with "range".
  cbv beta iota.
  destruct (String.eqb (localName e) "input"); [simpl | reflexivity].
  destruct (getAttribute "type" e) as [ty|]; [ | reflexivity].
  destruct (String.eqb (Selector.lower ty) "range"); [simpl | reflexivity].
  destruct (getAttribute "data-dragging" e) as [v|]; [ | reflexivity].
  now rewrite andb_true_r.
Qed.

Lemma descendants_childNodes (e : Element) :
  descendants e = descendantsOfNodes (childNodes e).
Proof.
  destruct e as [name attrs kids]; simpl.
  induction kids as [|[data|c] r IH]; simpl; [reflexivity | exact IH | ].
  now rewrite IH.
Qed.

Lemma find_beingDragged (l : list Element) :
  find (Selector.matches dragCompound) l = find beingDragged l.
Proof.
  induction l as [|e r IH]; simpl; [reflexivity | ].
  now rewrite matches_beingDragged, IH.
Qed.

Lemma find_none_iff (A : Type) (p : A -> bool) (l : list A) :
  find p l = None <-> (forall x, In x l -> p x = false).
Proof.
  split; [apply find_none | ].
  induction l as [|a r IH]; simpl; intros H; [reflexivity | ].
  rewrite (H a (or_introl eq_refl)). apply IH. intros x Hx. apply H. now right.
Qed.

Lemma find_some_of_member (A : Type) (p : A -> bool) (l : list A) (x : A) :
  In x l -> p x = true -> exists y, find p l = Some y.
Proof.
  intros Hin Hp. destruct (find p l) as [y|] eqn:E; [now exists y | ].
  rewrite (find_none _ _ E _ Hin) in Hp. discriminate.
Qed.

(** ** The listener, step by step *)

(** What the listener does, by the outcome of the search. *)
Lemma dragGuard_unfold (h : Heap) :
  dragGuard h =
  match find beingDragged (region h) with
  | Some _ => preventDefault h
  | None => (Normal tt, h)
  end.
Proof.
  unfold dragGuard, bind, eventTarget, querySelector, region.
  rewrite parse_dragSelector. unfold ret.
  rewrite find_beingDragged.
  now destruct (find beingDragged (descendants (element (target (event h))))).
Qed.

Lemma dragGuard_found (h : Heap) (d : Element) :
  In d (region h) -> beingDragged d = true -> dragGuard h = preventDefault h.
Proof.
  intros Hin Hd. rewrite dragGuard_unfold.
  destruct (find_some_of_member beingDragged (region h) d Hin Hd) as [y ->].
  reflexivity.
Qed.

Lemma dragGuard_not_found (h : Heap) :
  (forall d, In d (region h) -> beingDragged d = false) ->
  dragGuard h = (Normal tt, h).
Proof.
  intros H. rewrite dragGuard_unfold.
  apply find_none_iff in H. now rewrite H.
Qed.

Lemma preventDefault_changes (h : Heap) : preventDefault h <> (Normal tt, h).
Proof.
  unfold preventDefault, logCall. intros E.
  apply (f_equal (fun r => length (calls (page (snd r))))) in E.
  simpl in E. rewrite length_app in E. simpl in E. lia.
Qed.

Lemma preventDefault_registry (h : Heap) :
  sameRegistry (page h) (page (snd (preventDefault h))).
Proof. now repeat split. Qed.

Lemma dragGuard_registry (h : Heap) :
  sameRegistry (page h) (page (snd (dragGuard h))).
Proof.
  rewrite dragGuard_unfold.
  destruct (find beingDragged (region h));
    [apply preventDefault_registry | now repeat split].
Qed.

Lemma dragGuard_normal (h : Heap) : fst (dragGuard h) = Normal tt.
Proof.
  rewrite dragGuard_unfold. now destruct (find beingDragged (region h)).
Qed.

Lemma sameRegistry_trans (p q r : Page) :
  sameRegistry p q -> sameRegistry q r -> sameRegistry p r.
Proof.
  unfold sameRegistry. intros (A & B & C) (A' & B' & C').
  repeat split; congruence.
Qed.

(** ** Registration *)

Lemma invoke_guard (f : Function) (h : Heap) :
  code f = DragGuard -> invoke f h = dragGuard h.
Proof.
  intros C. unfold invoke, call. rewrite C.
  pose proof (dragGuard_normal h) as N.
  destruct (dragGuard h) as [[[]|e] h']; simpl in N; [reflexivity | discriminate].
Qed.

Lemma invokeAll_guards_registry (fs : list Function) :
  Forall (fun f => code f = DragGuard) fs ->
  forall h, sameRegistry (page h) (page (snd (invokeAll fs h))).
Proof.
  induction 1 as [|f r Hf _ IH]; intros h; simpl; [now repeat split | ].
  unfold bind. rewrite (invoke_guard f h Hf).
  pose proof (dragGuard_normal h) as N. pose proof (dragGuard_registry h) as R.
  destruct (dragGuard h) as [[[]|e] h']; simpl in N, R; [ | discriminate].
  exact (sameRegistry_trans R (IH h')).
Qed.

Lemma fresh_listener (n len start : nat) :
  start + len <= n ->
  existsb (sameListener (mkListener liveUpdate (mkFunction (S n) DragGuard) false))
          (map guardListener (seq start len)) = false.
Proof.
  revert start. induction len as [|len IH]; intros start Hle; simpl; [reflexivity | ].
  rewrite IH by lia.
  unfold sameListener, guardListener; simpl callback; simpl identity.
  assert (E : Nat.eqb (S n) (S start) = false) by (apply Nat.eqb_neq; lia).
  rewrite E. now rewrite andb_false_r.
Qed.

Lemma registered_scripted : Registered 0 scripted.
Proof. now repeat split. Qed.

Lemma registered_load (n : nat) (p : Page) (e : Event) :
  Registered n p -> Registered (S n) (htmxLoad e p).
Proof.
  intros (A & L & B). unfold htmxLoad. rewrite L.
  unfold invokeAll, bind, invoke, call, liftPage; simpl code; cbv iota.
  unfold onLoadCallback, bind, newFunction, addEventListener; simpl.
  rewrite A, B. rewrite fresh_listener by lia.
  repeat split; simpl; [exact L | ].
  change (guardListener 0 :: map guardListener (seq 1 n))
    with (map guardListener (seq 0 (S n))).
  now rewrite seq_S, map_app.
Qed.

Lemma registered_message (n : nat) (p : Page) (e : Event) :
  Registered n p -> Registered n (page (snd (dispatchEvent e p))).
Proof.
  intros (A & L & B). unfold dispatchEvent; simpl snd.
  set (fs := map callback (filter (listensTo e) (bodyListeners p))).
  assert (G : Forall (fun f => code f = DragGuard) fs).
  { subst fs. rewrite B. apply Forall_forall. intros f Hf.
    apply in_map_iff in Hf as (l & <- & Hl).
    apply filter_In in Hl as [Hl _].
    apply in_map_iff in Hl as (i & <- & _). reflexivity. }
  destruct (invokeAll_guards_registry G (mkHeap e p)) as (A' & L' & B').
  simpl in A', L', B'. unfold Registered. now rewrite A', L', B'.
Qed.

Lemma registered_run (steps : list HostStep) :
  forall n p, Registered n p -> Registered (n + loads steps) (run steps p).
Proof.
  unfold run, loads.
  induction steps as [|[e|e] r IH]; intros n p R; simpl.
  - now rewrite Nat.add_0_r.
  - replace (n + S (length (filter isLoad r))) with (S n + length (filter isLoad r)) by lia.
    apply IH. now apply registered_load.
  - apply IH. now apply registered_message.
Qed.

Lemma registered_liveListeners (n : nat) (p : Page) :
  Registered n p -> liveListeners p = map guardListener (seq 0 n).
Proof.
  intros (_ & _ & B). unfold liveListeners. rewrite B.
  apply forallb_filter_id. apply forallb_forall. intros l Hl.
  apply in_map_iff in Hl as (i & <- & _). reflexivity.
Qed.

(** The body holds one listener for the live update per [htmx:load] event
    that htmx has fired since the script ran. *)
Lemma liveListeners_count (steps : list HostStep) :
  length (liveListeners (run steps scripted)) = loads steps.
Proof.
  rewrite (registered_liveListeners (registered_run steps registered_scripted)).
  now rewrite length_map, length_seq.
Qed.

(** After the load event of the page alone, the body holds one listener. *)
Lemma one_load_one_listener (e : Event) :
  liveListeners (run [HtmxLoad e] scripted) = [guardListener 0].
Proof.
  now rewrite (registered_liveListeners (registered_run [HtmxLoad e] registered_scripted)).
Qed.

(** ** The listener under dispatch *)

Lemma find_existsb (A : Type) (p : A -> bool) (l : list A) :
  existsb p l = match find p l with Some _ => true | None => false end.
Proof.
  induction l as [|a r IH]; simpl; [reflexivity | ].
  now destruct (p a).
Qed.

Lemma dragGuard_marked (h : Heap) :
  dragGuard h = if marked h then preventDefault h else (Normal tt, h).
Proof.
  rewrite dragGuard_unfold. unfold marked. rewrite find_existsb.
  now destruct (find beingDragged (region h)).
Qed.

Lemma setCanceled_idempotent (e : Event) : setCanceled (setCanceled e) = setCanceled e.
Proof.
  unfold setCanceled; simpl. f_equal.
  now destruct (canceled e), (cancelable e).
Qed.

(** However many copies of the listener run, the event they leave behind is
    the one a single copy leaves. *)
Lemma invokeAll_guards_event (fs : list Function) :
  Forall (fun f => code f = DragGuard) fs ->
  forall h,
    event (snd (invokeAll fs h)) =
    match fs with
    | [] => event h
    | _ :: _ => if marked h then setCanceled (event h) else event h
    end.
Proof.
  induction 1 as [|f r Hf Hr IH]; intros h; simpl; [reflexivity | ].
  unfold bind. rewrite (invoke_guard f h Hf), dragGuard_marked.
  destruct (marked h) eqn:M; simpl; rewrite IH.
  - destruct Hr as [|g r' _ _]; [reflexivity | ].
    unfold marked, region; simpl. fold (region h). fold (marked h). rewrite M.
    apply setCanceled_idempotent.
  - destruct Hr as [|g r' _ _]; [reflexivity | now rewrite M].
Qed.

(** Once at least one load event has attached the listener, a live update is
    reported as canceled exactly when it is cancelable and its region holds a
    dragged range input (or it was canceled before). *)
Lemma dispatch_decision (n : nat) (p : Page) (e : Event) :
  Registered (S n) p -> eventType e = liveUpdate ->
  fst (dispatchEvent e p)
  = negb (canceled e || (cancelable e && marked (mkHeap e p))).
Proof.
  intros (_ & _ & B) T. unfold dispatchEvent; simpl fst.
  assert (F : filter (listensTo e) (bodyListeners p) = map guardListener (seq 0 (S n))).
  { rewrite B. apply forallb_filter_id. apply forallb_forall. intros l Hl.
    apply in_map_iff in Hl as (i & <- & _). unfold listensTo. rewrite T. reflexivity. }
  rewrite F, invokeAll_guards_event.
  - simpl map. cbv iota. destruct (marked (mkHeap e p)); simpl.
    + now rewrite andb_true_r.
    + now rewrite andb_false_r, orb_false_r.
  - apply Forall_forall. intros f Hf.
    apply in_map_iff in Hf as (l & <- & Hl).
    apply in_map_iff in Hl as (i & <- & _). reflexivity.
Qed.

(** ** The claims *)

(** C1: for every live-update event whose target has, among its descendants,
    a range input whose [data-dragging] attribute is [true], the listener
    calls [event.preventDefault()]: it does exactly what that call does, the
    call is recorded, and a cancelable event comes out canceled. *)
Theorem dragged_range_input_suppresses (h : Heap) (d : Element) :
  In d (region h) ->
  beingDragged d = true ->
  dragGuard h = preventDefault h
  /\ calls (page (snd (dragGuard h))) = calls (page h) ++ [PreventDefault]
  /\ (cancelable (event h) = true -> canceled (event (snd (dragGuard h))) = true).
Proof.
  intros Hin Hd. rewrite (dragGuard_found h d Hin Hd).
  repeat split. simpl. intros ->. apply orb_true_r.
Qed.

Lemma dragged_range_input_suppresses_witness :
  In Sample.dragged (region Sample.draggedHeap)
  /\ beingDragged Sample.dragged = true
  /\ dragGuard Sample.draggedHeap = preventDefault Sample.draggedHeap
  /\ canceled (event (snd (dragGuard Sample.draggedHeap))) = true.
Proof.
  assert (Hin : In Sample.dragged (region Sample.draggedHeap)) by (simpl; auto).
  assert (Hd : beingDragged Sample.dragged = true) by reflexivity.
  destruct (dragged_range_input_suppresses Sample.draggedHeap Sample.dragged Hin Hd)
    as (E & _ & C).
  split; [exact Hin | split; [exact Hd | split; [exact E | apply C; reflexivity]]].
Defined.

(** C2: for every live-update event whose target has no descendant range
    input with [data-dragging] set to [true], the listener returns normally
    and leaves the event and the page as they were: [preventDefault] is not
    called and nothing else is changed. *)
Theorem unmarked_region_proceeds_unmodified (h : Heap) :
  (forall d, In d (region h) -> beingDragged d = false) ->
  dragGuard h = (Normal tt, h).
Proof. apply dragGuard_not_found. Qed.

Lemma unmarked_region_proceeds_unmodified_witness :
  (forall d, In d (region Sample.releasedHeap) -> beingDragged d = false)
  /\ dragGuard Sample.releasedHeap = (Normal tt, Sample.releasedHeap).
Proof.
  assert (H : forall d, In d (region Sample.releasedHeap) -> beingDragged d = false).
  { simpl. intros d [<-|[]]. reflexivity. }
  split; [exact H | exact (unmarked_region_proceeds_unmodified Sample.releasedHeap H)].
Defined.

(** C3, as the code has it: a range input that carries the [data-dragging]
    attribute with a value other than [true] does not suppress the update.
    For every live-update event whose region contains such a range input,
    and in which no other element is a range input with the attribute set
    to [true], the listener returns with nothing changed. *)
Theorem falsy_marker_does_not_suppress (h : Heap) (d : Element) (v : string) :
  In d (region h) ->
  isRangeInput d = true ->
  dragMarker d = Some v ->
  v <> "true" ->
  (forall x, In x (region h) -> x <> d -> beingDragged x = false) ->
  dragGuard h = (Normal tt, h).
Proof.
  intros _ R M Hv Others. apply dragGuard_not_found. intros x Hx.
  assert (D : beingDragged d = false).
  { unfold beingDragged, markerIsTrue. rewrite R, M. now apply String.eqb_neq. }
  destruct (beingDragged x) eqn:B; [ | reflexivity].
  rewrite <- B. apply (Others x Hx). intros ->. congruence.
Qed.

Lemma falsy_marker_does_not_suppress_witness :
  In Sample.released (region Scenario.restingHeap)
  /\ isRangeInput Sample.released = true
  /\ dragMarker Sample.released = Some "false"
  /\ "false" <> "true"
  /\ (forall x, In x (region Scenario.restingHeap) -> x <> Sample.released ->
                beingDragged x = false)
  /\ dragGuard Scenario.restingHeap = (Normal tt, Scenario.restingHeap).
Proof.
  assert (Hin : In Sample.released (region Scenario.restingHeap)) by (simpl; auto).
  assert (Hv : "false" <> "true") by discriminate.
  assert (Others : forall x, In x (region Scenario.restingHeap) ->
                             x <> Sample.released -> beingDragged x = false).
  { simpl. intros x [<-|[<-|[]]] _; reflexivity. }
  split; [exact Hin | split; [reflexivity | split; [reflexivity | split; [exact Hv | ]]]].
  split; [exact Others | ].
  exact (@falsy_marker_does_not_suppress Scenario.restingHeap Sample.released "false"
           Hin eq_refl eq_refl Hv Others).
Defined.

(** C3, as the claim words it, fails: the region below holds a range input
    whose [data-dragging] is [false], and the update is suppressed all the
    same, because another range input of the region is being dragged. *)
Lemma falsy_marker_beside_dragged_is_suppressed :
  In Sample.released (region Scenario.mixedHeap)
  /\ isRangeInput Sample.released = true
  /\ dragMarker Sample.released = Some "false"
  /\ dragGuard Scenario.mixedHeap = preventDefault Scenario.mixedHeap
  /\ dragGuard Scenario.mixedHeap <> (Normal tt, Scenario.mixedHeap).
Proof.
  split; [simpl; auto | split; [reflexivity | split; [reflexivity | ]]].
  split; [reflexivity | ].
  intros E. vm_compute in E. discriminate E.
Qed.

(** C4: the claim is one listener, attached once. The script attaches a new
    listener at every [htmx:load] event htmx fires, each with a function
    object of its own that [addEventListener] cannot tell is a duplicate:
    after two load events the body holds two listeners, and a live update
    over a dragged slider is then handled by both. *)
Theorem second_load_attaches_second_listener (e1 e2 : Event) :
  liveListeners (run [HtmxLoad e1; HtmxLoad e2] scripted)
  = [guardListener 0; guardListener 1]
  /\ preventDefaultCalls
       (page (snd (dispatchEvent (event Sample.draggedHeap)
                                 (run [HtmxLoad e1; HtmxLoad e2] scripted))))
     = 2.
Proof. split; reflexivity. Qed.

(** C5: for every live-update event the listener returns with the event's
    type, target and cancelable flag, the whole document around the target
    (every element, attribute and text of it) and the page's functions, load
    callbacks and body listeners as they were; either nothing at all has
    changed, or the one change is the recorded [preventDefault] call and the
    canceled flag it sets. *)
Theorem guard_only_cancels (h : Heap) :
  exists h',
    dragGuard h = (Normal tt, h')
    /\ eventType (event h') = eventType (event h)
    /\ target (event h') = target (event h)
    /\ documentElement (target (event h')) = documentElement (target (event h))
    /\ cancelable (event h') = cancelable (event h)
    /\ sameRegistry (page h) (page h')
    /\ (h' = h
        \/ (calls (page h') = calls (page h) ++ [PreventDefault]
            /\ canceled (event h') = canceled (event h) || cancelable (event h))).
Proof.
  rewrite dragGuard_marked. destruct (marked h).
  - eexists. split; [reflexivity | ]. simpl.
    repeat split; right; split; reflexivity.
  - exists h. repeat split. now left.
Qed.

(** C6: for every live-update event the listener completes normally: the
    selector it passes to [querySelector] is well formed, so no
    [SyntaxError] is raised, and no run of the listener ends in a throw. *)
Theorem guard_never_throws (h : Heap) :
  Selector.parse dragSelector <> None
  /\ (exists h', dragGuard h = (Normal tt, h'))
  /\ (forall e h', dragGuard h <> (Throw e, h')).
Proof.
  pose proof (dragGuard_normal h) as N.
  split; [now rewrite parse_dragSelector | split].
  - destruct (dragGuard h) as [[[]|e] h']; simpl in N; [now exists h' | discriminate].
  - intros e h' E. rewrite E in N. discriminate.
Qed.

(** C8: only the strict descendants of the target count. Whatever the
    target element itself is (its name and attributes, a marked range input
    included) and whatever the rest of the document holds above and beside
    it, the update proceeds when no element below the target is a range
    input being dragged. *)
Theorem only_strict_descendants_count
        (above : list Frame) (name : string) (attrs : list Attr)
        (kids : list Node) (e : Event) (p : Page) :
  target e = mkTarget above (mkElement name attrs kids) ->
  (forall d, In d (descendantsOfNodes kids) -> beingDragged d = false) ->
  dragGuard (mkHeap e p) = (Normal tt, mkHeap e p).
Proof.
  intros T H. apply dragGuard_not_found. intros d Hin. apply H.
  unfold region in Hin; simpl in Hin. rewrite T in Hin; simpl element in Hin.
  now rewrite descendants_childNodes in Hin.
Qed.

Lemma only_strict_descendants_count_witness :
  beingDragged (element (target (event Sample.outsideHeap))) = true
  /\ existsb beingDragged
       (descendants (documentElement (target (event Sample.outsideHeap)))) = true
  /\ (forall d, In d (descendantsOfNodes (childNodes Sample.markedWithChildren)) ->
                beingDragged d = false)
  /\ dragGuard Sample.outsideHeap = (Normal tt, Sample.outsideHeap).
Proof.
  assert (H : forall d, In d (descendantsOfNodes (childNodes Sample.markedWithChildren)) ->
                        beingDragged d = false).
  { simpl. intros d [<-|[]]. reflexivity. }
  split; [reflexivity | split; [reflexivity | split; [exact H | ]]].
  exact (@only_strict_descendants_count
           [Sample.besideMarked] "input" [("type", "range"); ("data-dragging", "true")]
           (childNodes Sample.markedWithChildren)
           (event Sample.outsideHeap) (page Sample.outsideHeap) eq_refl H).
Defined.



(** The values the claim names, and any other value than [true]: a range
    input that holds one of them is not being dragged, and a region whose
    range inputs all hold it lets the update proceed. *)
Lemma other_values_proceed (h : Heap) (v : string) :
  v <> "true" ->
  (forall d, In d (region h) -> isRangeInput d = true -> dragMarker d = Some v) ->
  dragGuard h = (Normal tt, h).
Proof.
  intros Hv H. apply dragGuard_not_found. intros d Hin.
  unfold beingDragged, markerIsTrue.
  destruct (isRangeInput d) eqn:R; [simpl | reflexivity].
  rewrite (H d Hin R). now apply String.eqb_neq.
Qed.

Lemma named_values_not_dragged (v : string) :
  In v ["True"; "1"; "yes"; ""; "TRUE"; " true"; "false"] ->
  beingDragged (Sample.slider [("data-dragging", v)]) = false.
Proof.
  simpl. intros H.
  repeat (destruct H as [<-|H]; [reflexivity | ]). destruct H.
Qed.

(** C10: the decision depends on nothing but the subtree below the target:
    two runs of the listener on events whose targets have the same children
    decide alike, whatever else differs (the target's own name and
    attributes, the rest of the document, the event's flags, the page). *)
Theorem decision_depends_on_subtree_only (h1 h2 : Heap) :
  childNodes (element (target (event h1))) = childNodes (element (target (event h2))) ->
  (dragGuard h1 = preventDefault h1 /\ dragGuard h2 = preventDefault h2)
  \/ (dragGuard h1 = (Normal tt, h1) /\ dragGuard h2 = (Normal tt, h2)).
Proof.
  intros K. rewrite !dragGuard_marked.
  assert (M : marked h1 = marked h2).
  { unfold marked, region. now rewrite !descendants_childNodes, K. }
  rewrite M. destruct (marked h2); [left | right]; now split.
Qed.

Lemma decision_depends_on_subtree_only_witness :
  target (event Sample.draggedHeap) <> target (event Sample.elsewhereHeap)
  /\ dragGuard Sample.draggedHeap = preventDefault Sample.draggedHeap
  /\ dragGuard Sample.elsewhereHeap = preventDefault Sample.elsewhereHeap.
Proof.
  split; [discriminate | ].
  destruct (decision_depends_on_subtree_only Sample.draggedHeap Sample.elsewhereHeap eq_refl)
    as [D | [P _]]; [exact D | ].
  exfalso. vm_compute in P. discriminate P.
Defined.

(** ** Further properties of the script *)

Lemma registered_after_run (steps : list HostStep) :
  Registered (loads steps) (run steps scripted).
Proof. exact (registered_run steps registered_scripted). Qed.

Lemma guards_of_registered (n : nat) (p : Page) (e : Event) :
  Registered n p ->
  Forall (fun f => code f = DragGuard)
         (map callback (filter (listensTo e) (bodyListeners p))).
Proof.
  intros (_ & _ & B). rewrite B. apply Forall_forall. intros f Hf.
  apply in_map_iff in Hf as (l & <- & Hl).
  apply filter_In in Hl as [Hl _].
  apply in_map_iff in Hl as (i & <- & _). reflexivity.
Qed.

Lemma listeners_of_type (n : nat) (p : Page) (e : Event) :
  Registered n p -> eventType e = liveUpdate ->
  filter (listensTo e) (bodyListeners p) = map guardListener (seq 0 n).
Proof.
  intros (_ & _ & B) T. rewrite B.
  apply forallb_filter_id. apply forallb_forall. intros l Hl.
  apply in_map_iff in Hl as (i & <- & _). unfold listensTo. now rewrite T.
Qed.


Lemma marked_preventDefault (h : Heap) :
  marked (snd (preventDefault h)) = marked h.
Proof. reflexivity. Qed.

Lemma invokeAll_cons_guard (f : Function) (r : list Function) (h : Heap) :
  code f = DragGuard -> invokeAll (f :: r) h = invokeAll r (snd (dragGuard h)).
Proof.
  intros Hf. cbn [invokeAll]. unfold bind. rewrite (invoke_guard f h Hf).
  pose proof (dragGuard_normal h) as N.
  destruct (dragGuard h) as [[[]|e] h']; simpl in N; [reflexivity | discriminate].
Qed.

(** The calls a run of copies of the listener leaves in the log. *)
Lemma invokeAll_guards_calls (fs : list Function) :
  Forall (fun f => code f = DragGuard) fs ->
  forall h,
    calls (page (snd (invokeAll fs h)))
    = calls (page h)
      ++ repeat PreventDefault (if marked h then length fs else 0).
Proof.
  induction 1 as [|f r Hf _ IH]; intros h.
  - cbn [invokeAll]. unfold ret. cbn [snd length].
    destruct (marked h); cbn [repeat]; now rewrite app_nil_r.
  - rewrite (@invokeAll_cons_guard f r h Hf), IH, dragGuard_marked.
    destruct (marked h) eqn:M.
    + rewrite marked_preventDefault, M. cbn [length repeat].
      unfold preventDefault, logCall; cbn [snd page calls].
      now rewrite <- app_assoc.
    + cbn [snd]. now rewrite M.
Qed.

Lemma descendants_app (a b : list Node) :
  descendantsOfNodes (a ++ b) = descendantsOfNodes a ++ descendantsOfNodes b.
Proof.
  induction a as [|[data|c] r IH]; simpl; [reflexivity | exact IH | ].
  now rewrite IH, app_assoc.
Qed.

Lemma descendants_fill (f : Frame) (e : Element) :
  descendants (fill f e)
  = descendantsOfNodes (before f)
    ++ e :: descendants e ++ descendantsOfNodes (after f).
Proof.
  rewrite descendants_childNodes. unfold fill; simpl childNodes.
  now rewrite descendants_app.
Qed.

(** What lies below an element lies below everything built around it. *)
Lemma descendants_plug (fs : list Frame) :
  forall e x, In x (descendants e) -> In x (descendants (plug fs e)).
Proof.
  induction fs as [|f up IH]; intros e x Hx; simpl; [exact Hx | ].
  apply IH. rewrite descendants_fill.
  apply in_or_app. right. right. apply in_or_app. now left.
Qed.

Lemma self_below_plug (f : Frame) (up : list Frame) (e : Element) :
  In e (descendants (plug (f :: up) e)).
Proof.
  simpl. apply descendants_plug. rewrite descendants_fill.
  apply in_or_app. right. now left.
Qed.

Lemma marked_found (h : Heap) :
  marked h = true <-> exists d, In d (region h) /\ beingDragged d = true.
Proof. unfold marked. apply existsb_exists. Qed.

(** X1: after the script has run, whatever sequence of [htmx:load] events and
    live updates the host produces, the listeners of the body are exactly
    one drag guard per load event, in the order they were attached and each
    with a function object of its own; live updates add and remove none. *)
Theorem listeners_follow_load_events (steps : list HostStep) :
  bodyListeners (run steps scripted) = map guardListener (seq 0 (loads steps))
  /\ length (liveListeners (run steps scripted)) = loads steps
  /\ NoDup (map (fun l => identity (callback l)) (bodyListeners (run steps scripted))).
Proof.
  pose proof (registered_after_run steps) as R.
  pose proof (registered_liveListeners R) as L.
  destruct R as (_ & _ & B).
  split; [exact B | split].
  - now rewrite L, length_map, length_seq.
  - rewrite B, map_map.
    change (fun x : nat => identity (callback (guardListener x))) with S.
    rewrite seq_shift. apply seq_NoDup.
Qed.

(** X2: once htmx has fired [htmx:load] at least once, dispatching a live
    update answers [false] (do not swap) exactly when the event was canceled
    before or is cancelable and has a dragged range input below its target;
    the event comes back as one run of the guard leaves it, however many
    copies of the guard the load events have attached. *)
Theorem registered_guard_decides (steps : list HostStep) (e : Event) :
  0 < loads steps ->
  eventType e = liveUpdate ->
  fst (dispatchEvent e (run steps scripted))
  = negb (canceled e
          || (cancelable e && existsb beingDragged (descendants (element (target e)))))
  /\ event (snd (dispatchEvent e (run steps scripted)))
     = if existsb beingDragged (descendants (element (target e)))
       then setCanceled e else e.
Proof.
  intros Hn T. pose proof (registered_after_run steps) as R.
  destruct (loads steps) as [|n]; [lia | ].
  split; [exact (@dispatch_decision n _ e R T) | ].
  unfold dispatchEvent; cbn [snd].
  rewrite (invokeAll_guards_event (@guards_of_registered _ _ e R)).
  rewrite (@listeners_of_type _ _ e R T). reflexivity.
Qed.

Lemma registered_guard_decides_witness :
  0 < loads Scenario.twoLoads
  /\ eventType (event Sample.draggedHeap) = liveUpdate
  /\ fst (dispatchEvent (event Sample.draggedHeap) (run Scenario.twoLoads scripted)) = false
  /\ canceled (event (snd (dispatchEvent (event Sample.draggedHeap)
                                         (run Scenario.twoLoads scripted)))) = true.
Proof.
  assert (Hn : 0 < loads Scenario.twoLoads) by (cbv; lia).
  assert (T : eventType (event Sample.draggedHeap) = liveUpdate) by reflexivity.
  destruct (registered_guard_decides Scenario.twoLoads (event Sample.draggedHeap) Hn T)
    as [F E].
  split; [exact Hn | split; [exact T | split]].
  - rewrite F. reflexivity.
  - rewrite E. reflexivity.
Defined.



(** X4: the script alone attaches nothing. Until htmx fires its first
    [htmx:load] event the body has no guard, and a live update passes
    untouched even over a dragged range input. *)
Theorem no_guard_before_first_load (steps : list HostStep) (e : Event) :
  loads steps = 0 ->
  run steps scripted = scripted
  /\ dispatchEvent e (run steps scripted) = (negb (canceled e), mkHeap e scripted).
Proof.
  intros Z.
  assert (P : run steps scripted = scripted).
  { revert Z. unfold run, loads.
    induction steps as [|[e0|e0] r IH]; cbn [filter isLoad length fold_left];
      intros Z; [reflexivity | discriminate | ].
    change (step scripted (SseMessage e0)) with scripted. exact (IH Z). }
  split; [exact P | ].
  rewrite P. reflexivity.
Qed.

Lemma no_guard_before_first_load_witness :
  loads Scenario.noLoad = 0
  /\ marked Sample.draggedHeap = true
  /\ dispatchEvent (event Sample.draggedHeap) (run Scenario.noLoad scripted)
     = (true, mkHeap (event Sample.draggedHeap) scripted).
Proof.
  split; [reflexivity | split; [reflexivity | ]].
  exact (proj2 (@no_guard_before_first_load Scenario.noLoad (event Sample.draggedHeap) eq_refl)).
Defined.

(** X5: a live update is handled by every guard the load events have
    attached. With a dragged range input below the target the dispatch adds
    one [preventDefault] call per load event to the log, and nothing else;
    without one it adds nothing. No error is ever reported. *)
Theorem every_copy_handles_the_update (steps : list HostStep) (e : Event) :
  eventType e = liveUpdate ->
  calls (page (snd (dispatchEvent e (run steps scripted))))
  = calls (run steps scripted)
    ++ repeat PreventDefault
         (if existsb beingDragged (descendants (element (target e)))
          then loads steps else 0).
Proof.
  intros T. pose proof (registered_after_run steps) as R.
  unfold dispatchEvent; cbn [snd].
  rewrite (invokeAll_guards_calls (@guards_of_registered _ _ e R)).
  rewrite (@listeners_of_type _ _ e R T).
  now rewrite !length_map, length_seq.
Qed.

Lemma every_copy_handles_the_update_witness :
  eventType (event Sample.draggedHeap) = liveUpdate
  /\ calls (page (snd (dispatchEvent (event Sample.draggedHeap)
                                     (run Scenario.twoLoads scripted))))
     = calls (run Scenario.twoLoads scripted) ++ [PreventDefault; PreventDefault].
Proof.
  split; [reflexivity | ].
  exact (@every_copy_handles_the_update Scenario.twoLoads (event Sample.draggedHeap) eq_refl).
Defined.

(** X6: the search goes all the way down. A dragged range input suppresses
    the update at any depth below the target, whatever elements and text
    lie between the target and it or beside it on the way. *)
Theorem dragged_at_any_depth (h : Heap) (f : Frame) (up : list Frame) (d : Element) :
  element (target (event h)) = plug (f :: up) d ->
  beingDragged d = true ->
  dragGuard h = preventDefault h.
Proof.
  intros E D. apply (@dragGuard_found h d); [ | exact D].
  unfold region. rewrite E. apply self_below_plug.
Qed.

Lemma dragged_at_any_depth_witness :
  element (target (event Scenario.deepHeap)) = plug Scenario.nesting Sample.dragged
  /\ beingDragged Sample.dragged = true
  /\ dragGuard Scenario.deepHeap = preventDefault Scenario.deepHeap.
Proof.
  split; [reflexivity | split; [reflexivity | ]].
  exact (@dragged_at_any_depth Scenario.deepHeap
           (mkFrame "label" [] [TextNode "Volume"] [])
           [mkFrame "form" [("id", "controls")] [] [ElementNode Sample.released]]
           Sample.dragged eq_refl eq_refl).
Defined.

(** X7: suppression carries over to every enclosing region. If the guard
    suppresses an update aimed at an element, it suppresses an update aimed
    at any element built around that one. *)
Theorem enclosing_region_is_suppressed (h1 h2 : Heap) (around : list Frame) :
  element (target (event h2)) = plug around (element (target (event h1))) ->
  dragGuard h1 = preventDefault h1 ->
  dragGuard h2 = preventDefault h2.
Proof.
  intros E S1.
  assert (M : marked h1 = true).
  { rewrite dragGuard_marked in S1. destruct (marked h1); [reflexivity | ].
    symmetry in S1. now apply preventDefault_changes in S1. }
  apply marked_found in M as (d & Hin & D).
  apply (@dragGuard_found h2 d); [ | exact D].
  unfold region. rewrite E. now apply descendants_plug.
Qed.

Lemma enclosing_region_is_suppressed_witness :
  element (target (event Scenario.widerHeap))
  = plug Scenario.around (element (target (event Sample.draggedHeap)))
  /\ dragGuard Sample.draggedHeap = preventDefault Sample.draggedHeap
  /\ dragGuard Scenario.widerHeap = preventDefault Scenario.widerHeap.
Proof.
  split; [reflexivity | split; [reflexivity | ]].
  exact (@enclosing_region_is_suppressed Sample.draggedHeap Scenario.widerHeap
           Scenario.around eq_refl eq_refl).
Defined.

(** X8: the guard never re-enables an update. An event that reaches the
    body canceled already is answered [false] and leaves canceled, whatever
    its type and whatever lies below its target. *)
Theorem canceled_stays_canceled (steps : list HostStep) (e : Event) :
  canceled e = true ->
  fst (dispatchEvent e (run steps scripted)) = false
  /\ canceled (event (snd (dispatchEvent e (run steps scripted)))) = true.
Proof.
  intros C. pose proof (registered_after_run steps) as R.
  assert (K : canceled (event (snd (dispatchEvent e (run steps scripted)))) = true).
  { unfold dispatchEvent; cbn [snd].
    rewrite (invokeAll_guards_event (@guards_of_registered _ _ e R)).
    destruct (map callback (filter (listensTo e) (bodyListeners (run steps scripted))));
      [exact C | ].
    destruct (marked _); [ | exact C].
    unfold setCanceled; cbn [canceled event]. now rewrite C. }
  split; [ | exact K].
  unfold dispatchEvent in *; cbn [fst snd] in *. now rewrite K.
Qed.

Lemma canceled_stays_canceled_witness :
  canceled Scenario.canceledBefore = true
  /\ marked (mkHeap Scenario.canceledBefore (run Scenario.twoLoads scripted)) = false
  /\ fst (dispatchEvent Scenario.canceledBefore (run Scenario.twoLoads scripted)) = false.
Proof.
  split; [reflexivity | split; [reflexivity | ]].
  exact (proj1 (@canceled_stays_canceled Scenario.twoLoads Scenario.canceledBefore eq_refl)).
Defined.
